(** * ICP_DAO: the proposal canister

    A shallow embedding of the two revisions of the canister that the
    repository carries:

    - the revised canister (validated payloads, owner checks, a
      [deleteProposal] that takes the requesting principal), embedded at
      top level under the names the source uses;
    - [src/index.ts], the first revision, embedded in [Module SrcIndex].

    Each exported canister method becomes a function from the call's
    environment ([ic.caller()], [ic.time()], [uuidv4()]) and the contents of
    [proposalStorage] to a [Result] and the new contents of the storage. *)

From Stdlib Require Import String Ascii.
From stdpp Require Import base numbers list option gmap fin_maps.

Open Scope N_scope.

(** ** JavaScript values *)

(** A JavaScript string is a sequence of UTF-16 code units. *)
Definition JsString := list N.

(** String literals of the source (all of them ASCII). *)
Definition utf16 (s : string) : JsString :=
  map N_of_ascii (list_ascii_of_string s).

(** [!s] on a string: only the empty string is falsy. *)
Definition not_ (s : JsString) : bool :=
  match s with
  | [] => true
  | _ :: _ => false
  end.

(** The code units that [String.prototype.trim] strips: ECMAScript's
    WhiteSpace (TAB, VT, FF, ZWNBSP and the Unicode space separators) and
    LineTerminator (LF, CR, LS, PS). All of them lie in the basic plane, so
    a test per code unit is exact. *)
Definition isWhiteSpace (c : N) : bool :=
  (c =? 0x0009) || (c =? 0x000A) || (c =? 0x000B) || (c =? 0x000C)
  || (c =? 0x000D) || (c =? 0x0020) || (c =? 0x00A0) || (c =? 0x1680)
  || ((0x2000 <=? c) && (c <=? 0x200A))
  || (c =? 0x2028) || (c =? 0x2029) || (c =? 0x202F) || (c =? 0x205F)
  || (c =? 0x3000) || (c =? 0xFEFF).

Fixpoint trimStart (s : JsString) : JsString :=
  match s with
  | [] => []
  | c :: s' => if isWhiteSpace c then trimStart s' else s
  end.

Definition trimEnd (s : JsString) : JsString :=
  rev (trimStart (rev s)).

(** [s.trim()] *)
Definition trim (s : JsString) : JsString :=
  trimEnd (trimStart s).

(** [a === b] on strings. *)
Definition strictEq (a b : JsString) : bool :=
  bool_decide (a = b).

(** [arr.includes(x)] on an array of strings. *)
Definition includes (arr : list JsString) (x : JsString) : bool :=
  existsb (strictEq x) arr.

(** ** Azle values *)

(** [Result<T, E>]: the tagged value every method returns. *)
Inductive Result (T E : Type) : Type :=
| Ok (value : T)
| Err (error : E).
Arguments Ok {T E} value.
Arguments Err {T E} error.

(** A principal, identified by its textual form ([toString()]). *)
Definition Principal := JsString.

(** A [Principal] object on the JavaScript heap of a running call. Besides
    the principal it denotes, an object has an identity, and that identity
    is all that [==] looks at when both operands are objects. *)
Record PrincipalObject : Type := {
  address : N;
  toString : Principal;
}.

(** [a == b] where [b] is an object and [a] is an object or [undefined]. *)
Definition looseEq (a : option PrincipalObject) (b : PrincipalObject) : bool :=
  match a with
  | Some a' => address a' =? address b
  | None => false
  end.

(** The record kept in [proposalStorage] and returned by the methods.
    [yesVotes] and [noVotes] are JavaScript numbers holding counts; adding
    one to a count is exact below 2^53, a tally no sequence of calls
    reaches. [created_at] and [updated_at] are [nat64] values that the code
    only copies. *)
Record Proposal : Type := {
  owner : Principal;
  id : JsString;
  title : JsString;
  description : JsString;
  voters : list JsString;
  yesVotes : N;
  noVotes : N;
  created_at : N;
  updated_at : option N;
}.

Record ProposalPayload : Type := {
  payload_title : JsString;
  payload_description : JsString;
}.

(** What a call reads from outside the canister's own state. [heap] is the
    first free address of the call's JavaScript heap when the method body
    starts: the arguments of the call were decoded into objects below it,
    and whatever the body reads from stable storage is decoded into objects
    at or above it. *)
Record Env : Type := {
  ic_caller : Principal;
  ic_time : N;
  uuidv4 : JsString;
  heap : N;
}.

(** ** [proposalStorage]

    [StableBTreeMap<string, Proposal>] keeps serialised records under their
    keys. [insert] and [remove] are modelled as total: the catch branch of
    [createProposal], which reports a failure of the storage engine itself,
    has no counterpart here. *)
Abbreviation Storage := (gmap JsString Proposal).

Definition storage_get (m : Storage) (k : JsString) : option Proposal :=
  m !! k.

Definition storage_insert (m : Storage) (k : JsString) (v : Proposal) : Storage :=
  <[k := v]> m.

Definition storage_remove (m : Storage) (k : JsString) : option Proposal * Storage :=
  (m !! k, delete k m).

Definition storage_values (m : Storage) : list Proposal :=
  (map_to_list m).*2.

(** ** The canister methods (revised source) *)

Definition getProposals (st : Storage) : Result (list Proposal) JsString :=
  Ok (storage_values st).

Definition getProposal (st : Storage) (id_ : JsString) : Result Proposal JsString :=
  if not_ id_ then Err (utf16 "Invalid id")
  else
    match storage_get st id_ with
    | Some proposal => Ok proposal
    | None => Err (utf16 "a proposal with id=" ++ id_ ++ utf16 " not found")
    end.

Definition createProposal (env : Env) (st : Storage) (payload : ProposalPayload)
  : Result Proposal JsString * Storage :=
  let title_ := payload_title payload in
  let description_ := payload_description payload in
  if not_ title_ || not_ description_ then
    (Err (utf16 "Missing required fields"), st)
  else
    let proposal :=
      {| owner := ic_caller env;
         id := uuidv4 env;
         title := title_;
         description := description_;
         voters := [];
         yesVotes := 0;
         noVotes := 0;
         created_at := ic_time env;
         updated_at := None |} in
    (Ok proposal, storage_insert st (id proposal) proposal).

Definition proposal_not_found (id_ : JsString) : JsString :=
  utf16 "couldn't update a proposal with id=" ++ id_ ++ utf16 ". proposal not found".

Definition voteYes (env : Env) (st : Storage) (id_ : JsString)
  : Result Proposal JsString * Storage :=
  match storage_get st id_ with
  | Some proposal =>
      if strictEq (owner proposal) (ic_caller env) then
        (Err (utf16 "Owners cannot vote for their own proposal"), st)
      else if includes (voters proposal) (ic_caller env) then
        (Err (utf16 "Already voted"), st)
      else
        let proposal :=
          {| owner := owner proposal;
             id := id proposal;
             title := title proposal;
             description := description proposal;
             voters := voters proposal;
             yesVotes := yesVotes proposal + 1;
             noVotes := noVotes proposal;
             created_at := created_at proposal;
             updated_at := Some (ic_time env) |} in
        (Ok proposal, storage_insert st (id proposal) proposal)
  | None => (Err (proposal_not_found id_), st)
  end.

Definition voteNo (env : Env) (st : Storage) (id_ : JsString)
  : Result Proposal JsString * Storage :=
  match storage_get st id_ with
  | Some proposal =>
      if strictEq (owner proposal) (ic_caller env) then
        (Err (utf16 "Owners cannot vote for their own proposal"), st)
      else if includes (voters proposal) (ic_caller env) then
        (Err (utf16 "Already voted"), st)
      else
        let proposal :=
          {| owner := owner proposal;
             id := id proposal;
             title := title proposal;
             description := description proposal;
             voters := voters proposal;
             yesVotes := yesVotes proposal;
             noVotes := noVotes proposal + 1;
             created_at := created_at proposal;
             updated_at := Some (ic_time env) |} in
        (Ok proposal, storage_insert st (id proposal) proposal)
  | None => (Err (proposal_not_found id_), st)
  end.

(** The payload's fields are typed [string], so the two [typeof] tests of
    the source never fire. *)
Definition isValidPayload (payload : ProposalPayload) : bool :=
  let title_ := payload_title payload in
  let description_ := payload_description payload in
  if not_ title_ || false || strictEq (trim title_) [] then false
  else if not_ description_ || false || strictEq (trim description_) [] then false
  else true.

Definition updateProposal (env : Env) (st : Storage) (id_ : JsString)
    (payload : ProposalPayload) : Result Proposal JsString * Storage :=
  if negb (isValidPayload payload) then (Err (utf16 "Invalid payload"), st)
  else
    match storage_get st id_ with
    | Some proposal =>
        let updatedProposal :=
          {| owner := owner proposal;
             id := id proposal;
             title := payload_title payload;
             description := payload_description payload;
             voters := voters proposal;
             yesVotes := yesVotes proposal;
             noVotes := noVotes proposal;
             created_at := created_at proposal;
             updated_at := Some (ic_time env) |} in
        (Ok updatedProposal, storage_insert st (id proposal) updatedProposal)
    | None => (Err (proposal_not_found id_), st)
    end.

(** The record that [proposalStorage.get] hands to a method body is built
    from the stored bytes during the call: its [owner] is a new
    [Principal] object, placed at the first free address. *)
Definition decoded_owner (env : Env) (proposal : Proposal) : PrincipalObject :=
  {| address := heap env; toString := owner proposal |}.

(** [proposal.Some?.owner == user] compares the decoded owner with the
    argument as objects. *)
Definition deleteProposal (env : Env) (st : Storage) (id_ : JsString)
    (user : PrincipalObject) : Result Proposal JsString * Storage :=
  if not_ id_ then (Err (utf16 "id is required"), st)
  else
    let proposal := storage_get st id_ in
    if looseEq (decoded_owner env <$> proposal) user then
      match storage_remove st id_ with
      | (Some deletedProposal, st') => (Ok deletedProposal, st')
      | (None, st') =>
          (Err (utf16 "couldn't delete a proposal with id=" ++ id_
                ++ utf16 ". proposal not found."), st')
      end
    else
      (Err (utf16 "couldn't delete a proposal ,proposal not found."), st).

(** ** The first revision, [src/index.ts] *)

Module SrcIndex.

Definition getProposals (st : Storage) : Result (list Proposal) JsString :=
  Ok (storage_values st).

Definition getProposal (st : Storage) (id_ : JsString) : Result Proposal JsString :=
  match storage_get st id_ with
  | Some proposal => Ok proposal
  | None => Err (utf16 "a proposal with id=" ++ id_ ++ utf16 " not found")
  end.

Definition createProposal (env : Env) (st : Storage) (payload : ProposalPayload)
  : Result Proposal JsString * Storage :=
  let title_ := payload_title payload in
  let description_ := payload_description payload in
  if not_ title_ || not_ description_ then
    (Err (utf16 "Missing required fields"), st)
  else
    let proposal :=
      {| owner := ic_caller env;
         id := uuidv4 env;
         title := title_;
         description := description_;
         voters := [];
         yesVotes := 0;
         noVotes := 0;
         created_at := ic_time env;
         updated_at := None |} in
    (Ok proposal, storage_insert st (id proposal) proposal).

(** [Array.from(proposal.voters.values()).filter(v => v.toString() ===
    ic.caller().toString())] *)
Definition hasVoted (env : Env) (proposal : Proposal) : list JsString :=
  List.filter (fun voter => strictEq voter (ic_caller env)) (voters proposal).

(** The owner test is commented out in this revision. *)
Definition voteYes (env : Env) (st : Storage) (id_ : JsString)
  : Result Proposal JsString * Storage :=
  match storage_get st id_ with
  | Some proposal =>
      if (0 <? length (hasVoted env proposal))%nat then
        (Err (utf16 "Already voted"), st)
      else
        let updatedProposal :=
          {| owner := owner proposal;
             id := id proposal;
             title := title proposal;
             description := description proposal;
             voters := voters proposal;
             yesVotes := yesVotes proposal + 1;
             noVotes := noVotes proposal;
             created_at := created_at proposal;
             updated_at := Some (ic_time env) |} in
        (Ok updatedProposal, storage_insert st (id proposal) updatedProposal)
  | None => (Err (proposal_not_found id_), st)
  end.

Definition voteNo (env : Env) (st : Storage) (id_ : JsString)
  : Result Proposal JsString * Storage :=
  match storage_get st id_ with
  | Some proposal =>
      if (0 <? length (hasVoted env proposal))%nat then
        (Err (utf16 "Already voted"), st)
      else
        let updatedProposal :=
          {| owner := owner proposal;
             id := id proposal;
             title := title proposal;
             description := description proposal;
             voters := voters proposal;
             yesVotes := yesVotes proposal;
             noVotes := noVotes proposal + 1;
             created_at := created_at proposal;
             updated_at := Some (ic_time env) |} in
        (Ok updatedProposal, storage_insert st (id proposal) updatedProposal)
  | None => (Err (proposal_not_found id_), st)
  end.

(** [{...proposal, ...payload, updated_at: Opt.Some(ic.time())}]: the
    payload carries [title] and [description] and nothing else. *)
Definition updateProposal (env : Env) (st : Storage) (id_ : JsString)
    (payload : ProposalPayload) : Result Proposal JsString * Storage :=
  match storage_get st id_ with
  | Some proposal =>
      let updatedProposal :=
        {| owner := owner proposal;
           id := id proposal;
           title := payload_title payload;
           description := payload_description payload;
           voters := voters proposal;
           yesVotes := yesVotes proposal;
           noVotes := noVotes proposal;
           created_at := created_at proposal;
           updated_at := Some (ic_time env) |} in
      (Ok updatedProposal, storage_insert st (id proposal) updatedProposal)
  | None => (Err (proposal_not_found id_), st)
  end.

Definition deleteProposal (st : Storage) (id_ : JsString)
  : Result Proposal JsString * Storage :=
  match storage_remove st id_ with
  | (Some deletedProposal, st') => (Ok deletedProposal, st')
  | (None, st') =>
      (Err (utf16 "couldn't delete a proposal with id=" ++ id_
            ++ utf16 ". proposal not found."), st')
  end.

End SrcIndex.

(** ** Calls and runs *)

(** The update methods of the canister, as a caller names them. *)
Inductive Call : Type :=
| CreateProposal (payload : ProposalPayload)
| VoteYes (id_ : JsString)
| VoteNo (id_ : JsString)
| UpdateProposal (id_ : JsString) (payload : ProposalPayload)
| DeleteProposal (id_ : JsString) (user : PrincipalObject).

Definition run (env : Env) (call : Call) (st : Storage)
  : Result Proposal JsString * Storage :=
  match call with
  | CreateProposal payload => createProposal env st payload
  | VoteYes id_ => voteYes env st id_
  | VoteNo id_ => voteNo env st id_
  | UpdateProposal id_ payload => updateProposal env st id_ payload
  | DeleteProposal id_ user => deleteProposal env st id_ user
  end.

(** A history of the canister: calls in the order they were served, each
    with the environment it ran in, starting from the given storage. *)
Fixpoint run_calls (calls : list (Env * Call)) (st : Storage) : Storage :=
  match calls with
  | [] => st
  | (env, call) :: calls' => run_calls calls' (run env call st).2
  end.

(** The runtime decodes the arguments of a call before the method body
    runs, so an object passed as an argument lies below [heap]. *)
Definition well_formed (env : Env) (call : Call) : Prop :=
  match call with
  | DeleteProposal _ user => address user < heap env
  | _ => True
  end.

Module SrcIndexRun.

(** [src/index.ts] has the same methods; its [deleteProposal] takes the
    id alone, so the requesting principal of a [DeleteProposal] call is
    not looked at. *)
Definition run (env : Env) (call : Call) (st : Storage)
  : Result Proposal JsString * Storage :=
  match call with
  | CreateProposal payload => SrcIndex.createProposal env st payload
  | VoteYes id_ => SrcIndex.voteYes env st id_
  | VoteNo id_ => SrcIndex.voteNo env st id_
  | UpdateProposal id_ payload => SrcIndex.updateProposal env st id_ payload
  | DeleteProposal id_ _ => SrcIndex.deleteProposal st id_
  end.

Fixpoint run_calls (calls : list (Env * Call)) (st : Storage) : Storage :=
  match calls with
  | [] => st
  | (env, call) :: calls' => run_calls calls' (run env call st).2
  end.

End SrcIndexRun.

(** ** Predicates of the specification *)

(** Every record is filed under its own [id]. *)
Definition keyed_by_id (st : Storage) : Prop :=
  ∀ k proposal, st !! k = Some proposal → id proposal = k.

(** The tally of a proposal and the size of its list of voters. *)
Definition tally (proposal : Proposal) : N :=
  yesVotes proposal + noVotes proposal.

Definition tally_matches_voters (proposal : Proposal) : Prop :=
  tally proposal = N.of_nat (length (voters proposal)).

(** A text that is empty or consists of white space only. *)
Definition blank (s : JsString) : Prop :=
  Forall (λ c, isWhiteSpace c = true) s.

(** Every stored proposal has an empty list of voters. *)
Definition no_voters (st : Storage) : Prop :=
  ∀ k proposal, st !! k = Some proposal → voters proposal = [].

(** ** A small scenario

    Alice creates proposal [p1]; Bob is another principal. *)
Module Scenario.

Definition alice : Principal := utf16 "rrkah-fqaaa-aaaaa-aaaaq-cai".
Definition bob : Principal := utf16 "2vxsx-fae".
Definition p1 : JsString := utf16 "p1".

Definition as_alice : Env :=
  {| ic_caller := alice; ic_time := 100; uuidv4 := p1; heap := 16 |}.
Definition as_bob : Env :=
  {| ic_caller := bob; ic_time := 200; uuidv4 := utf16 "p2"; heap := 16 |}.
Definition as_bob_later : Env :=
  {| ic_caller := bob; ic_time := 300; uuidv4 := utf16 "p3"; heap := 16 |}.

Definition payload : ProposalPayload :=
  {| payload_title := utf16 "Fund the library";
     payload_description := utf16 "Buy books" |}.

Definition blank_title : ProposalPayload :=
  {| payload_title := utf16 "   ";
     payload_description := utf16 "Buy books" |}.

Definition created : Proposal :=
  {| owner := alice;
     id := p1;
     title := utf16 "Fund the library";
     description := utf16 "Buy books";
     voters := [];
     yesVotes := 0;
     noVotes := 0;
     created_at := 100;
     updated_at := None |}.

(** The storage once Alice's [createProposal] has returned. *)
Definition st1 : Storage := (createProposal as_alice ∅ payload).2.

(** Alice's principal as an argument of a call: an object decoded before
    the method body starts. *)
Definition alice_arg : PrincipalObject :=
  {| address := 3; toString := alice |}.

End Scenario.

(** ** Further vocabulary *)

(** What a proposal keeps from its creation: who made it, under which
    identifier, and when. *)
Definition origin (proposal : Proposal) : Principal * JsString * N :=
  (owner proposal, id proposal, created_at proposal).


Definition is_create (call : Call) : bool :=
  match call with
  | CreateProposal _ => true
  | _ => false
  end.


(** A text with at least one code unit that [trim] keeps. *)
Definition has_ink (s : JsString) : Prop :=
  ∃ c, c ∈ s ∧ isWhiteSpace c = false.

(** The text neither starts nor ends with white space. *)
Definition trimmed (s : JsString) : Prop :=
  (∀ c, head s = Some c → isWhiteSpace c = false)
  ∧ (∀ c, last s = Some c → isWhiteSpace c = false).

(** The records that the methods write, as functions of what they read. *)
Definition fresh_record (env : Env) (payload : ProposalPayload) : Proposal :=
  {| owner := ic_caller env;
     id := uuidv4 env;
     title := payload_title payload;
     description := payload_description payload;
     voters := [];
     yesVotes := 0;
     noVotes := 0;
     created_at := ic_time env;
     updated_at := None |}.

Definition with_yes (env : Env) (proposal : Proposal) : Proposal :=
  {| owner := owner proposal;
     id := id proposal;
     title := title proposal;
     description := description proposal;
     voters := voters proposal;
     yesVotes := yesVotes proposal + 1;
     noVotes := noVotes proposal;
     created_at := created_at proposal;
     updated_at := Some (ic_time env) |}.

Definition with_no (env : Env) (proposal : Proposal) : Proposal :=
  {| owner := owner proposal;
     id := id proposal;
     title := title proposal;
     description := description proposal;
     voters := voters proposal;
     yesVotes := yesVotes proposal;
     noVotes := noVotes proposal + 1;
     created_at := created_at proposal;
     updated_at := Some (ic_time env) |}.

Definition with_texts (env : Env) (payload : ProposalPayload)
    (proposal : Proposal) : Proposal :=
  {| owner := owner proposal;
     id := id proposal;
     title := payload_title payload;
     description := payload_description payload;
     voters := voters proposal;
     yesVotes := yesVotes proposal;
     noVotes := noVotes proposal;
     created_at := created_at proposal;
     updated_at := Some (ic_time env) |}.

(** Every stored proposal satisfies [Q]. *)
Definition all_stored (Q : Proposal → Prop) (st : Storage) : Prop :=
  ∀ k proposal, st !! k = Some proposal → Q proposal.

(** Further cases of the scenario. *)
Module Cases.

(** Bob's call when the generator hands out [p1] a second time. *)
Definition as_bob_same_id : Env :=
  {| ic_caller := Scenario.bob; ic_time := 200; uuidv4 := Scenario.p1;
     heap := 16 |}.

Definition other_payload : ProposalPayload :=
  {| payload_title := utf16 "Plant trees";
     payload_description := utf16 "Along the river" |}.

(** Present, but white space only in the title. *)
Definition spaces_title : ProposalPayload :=
  {| payload_title := utf16 "   ";
     payload_description := utf16 "Buy books" |}.

Definition p9 : JsString := utf16 "p9".

(** A record whose list of voters names Bob, as a storage written by
    other means could hold it. *)
Definition with_voter : Proposal :=
  {| owner := Scenario.alice;
     id := p9;
     title := utf16 "Plant trees";
     description := utf16 "Along the river";
     voters := [Scenario.bob];
     yesVotes := 1;
     noVotes := 0;
     created_at := 50;
     updated_at := Some 60 |}.

Definition st_with_voter : Storage := {[ p9 := with_voter ]}.

Definition empty_payload : ProposalPayload :=
  {| payload_title := []; payload_description := [] |}.

End Cases.

(** * Properties *)

(** Splits a method body along its tests. *)
Ltac method_cases :=
  repeat match goal with
    | |- context [match ?x !! ?k with _ => _ end] => destruct (x !! k) eqn:?
    | |- context [if ?b then _ else _] => destruct b eqn:?
    end.

(** ** JavaScript helpers *)

Lemma not_true_iff (s : JsString) : not_ s = true ↔ s = [].
Proof. by destruct s. Qed.

Lemma not_false_iff (s : JsString) : not_ s = false ↔ s ≠ [].
Proof. by destruct s. Qed.

Lemma strictEq_true_iff (a b : JsString) : strictEq a b = true ↔ a = b.
Proof. unfold strictEq. apply bool_decide_eq_true. Qed.

Lemma strictEq_false_iff (a b : JsString) : strictEq a b = false ↔ a ≠ b.
Proof. unfold strictEq. apply bool_decide_eq_false. Qed.

Lemma includes_true_iff (arr : list JsString) (x : JsString) :
  includes arr x = true ↔ x ∈ arr.
Proof.
  unfold includes. rewrite existsb_exists. split.
  - intros (y & Hy & Heq). apply strictEq_true_iff in Heq. subst y.
    by apply list_elem_of_In.
  - intros Hx. exists x. split; [by apply list_elem_of_In|].
    by apply strictEq_true_iff.
Qed.

Lemma trimStart_nil_iff (s : JsString) : trimStart s = [] ↔ blank s.
Proof.
  unfold blank. induction s as [|c s IH]; simpl.
  - split; [constructor | done].
  - destruct (isWhiteSpace c) eqn:Hc.
    + rewrite IH. split; [by constructor | by inversion 1].
    + split; [done | inversion 1; congruence].
Qed.

Lemma trimStart_blank (s : JsString) : blank (trimStart s) → blank s.
Proof.
  unfold blank. induction s as [|c s IH]; simpl; [done|].
  destruct (isWhiteSpace c) eqn:Hc.
  - intros H. constructor; auto.
  - inversion 1; congruence.
Qed.

Lemma blank_rev (s : JsString) : blank (rev s) ↔ blank s.
Proof.
  unfold blank. split; intros H.
  - rewrite <- (rev_involutive s). by apply Forall_rev.
  - by apply Forall_rev.
Qed.

Lemma trimEnd_nil_iff (s : JsString) : trimEnd s = [] ↔ blank s.
Proof.
  unfold trimEnd. rewrite <- blank_rev, <- trimStart_nil_iff.
  split; intros H.
  - apply (f_equal (@rev N)) in H. by rewrite rev_involutive in H.
  - by rewrite H.
Qed.

(** [s.trim() === ""] exactly when [s] is empty or all white space. *)
Lemma trim_nil_iff (s : JsString) : trim s = [] ↔ blank s.
Proof.
  unfold trim. rewrite trimEnd_nil_iff. split.
  - apply trimStart_blank.
  - intros H. apply trimStart_nil_iff in H. rewrite H. constructor.
Qed.

Lemma isValidPayload_false_iff (payload : ProposalPayload) :
  isValidPayload payload = false
  ↔ blank (payload_title payload) ∨ blank (payload_description payload).
Proof.
  unfold isValidPayload.
  destruct (payload_title payload) as [|c t] eqn:Ht; simpl.
  { split; [intros _; left; constructor | done]. }
  destruct (strictEq (trim (c :: t)) []) eqn:Htrim.
  { apply strictEq_true_iff, trim_nil_iff in Htrim. split; auto. }
  apply strictEq_false_iff in Htrim. rewrite trim_nil_iff in Htrim.
  destruct (payload_description payload) as [|d t'] eqn:Hd; simpl.
  { split; [intros _; right; constructor | done]. }
  destruct (strictEq (trim (d :: t')) []) eqn:Htrim'.
  { apply strictEq_true_iff, trim_nil_iff in Htrim'. split; auto. }
  apply strictEq_false_iff in Htrim'. rewrite trim_nil_iff in Htrim'.
  split; [done | intros [?|?]; contradiction].
Qed.

Lemma isValidPayload_true_iff (payload : ProposalPayload) :
  isValidPayload payload = true
  ↔ ¬ blank (payload_title payload) ∧ ¬ blank (payload_description payload).
Proof.
  rewrite <- not_false_iff_true, isValidPayload_false_iff. tauto.
Qed.

(** ** Voting by the owner *)

(** C4: for every stored proposal, [voteYes] and [voteNo] called by the
    principal that owns it return a failure ("Owners cannot vote for their
    own proposal") and hand back the storage as it was. *)
Theorem owner_cannot_vote (env : Env) (st : Storage) (id_ : JsString)
    (proposal : Proposal) :
  st !! id_ = Some proposal →
  owner proposal = ic_caller env →
  voteYes env st id_
    = (Err (utf16 "Owners cannot vote for their own proposal"), st)
  ∧ voteNo env st id_
    = (Err (utf16 "Owners cannot vote for their own proposal"), st).
Proof.
  intros Hget Howner. unfold voteYes, voteNo, storage_get. rewrite Hget.
  assert (strictEq (owner proposal) (ic_caller env) = true) as ->
    by by apply strictEq_true_iff.
  done.
Qed.

Lemma owner_cannot_vote_witness :
  Scenario.st1 !! Scenario.p1 = Some Scenario.created
  ∧ owner Scenario.created = ic_caller Scenario.as_alice
  ∧ voteYes Scenario.as_alice Scenario.st1 Scenario.p1
    = (Err (utf16 "Owners cannot vote for their own proposal"), Scenario.st1)
  ∧ voteNo Scenario.as_alice Scenario.st1 Scenario.p1
    = (Err (utf16 "Owners cannot vote for their own proposal"), Scenario.st1).
Proof.
  split; [reflexivity|]. split; [reflexivity|].
  apply (owner_cannot_vote Scenario.as_alice Scenario.st1 Scenario.p1
           Scenario.created); reflexivity.
Defined.

(** ** Creation *)

(** C5: [createProposal] returns the failure "Missing required fields",
    and leaves the storage alone, when the title or the description is
    empty. With both present it files a new record under the identifier
    that [uuidv4()] produced for the call and returns that record: the
    caller is its owner, both counters are zero, the list of voters is
    empty and [updated_at] is absent; records under other keys stay as they
    were. *)
Theorem createProposal_spec (env : Env) (st : Storage) (payload : ProposalPayload) :
  (payload_title payload = [] ∨ payload_description payload = [] →
   createProposal env st payload = (Err (utf16 "Missing required fields"), st))
  ∧ (payload_title payload ≠ [] → payload_description payload ≠ [] →
     ∃ proposal st',
       createProposal env st payload = (Ok proposal, st')
       ∧ id proposal = uuidv4 env
       ∧ owner proposal = ic_caller env
       ∧ title proposal = payload_title payload
       ∧ description proposal = payload_description payload
       ∧ yesVotes proposal = 0
       ∧ noVotes proposal = 0
       ∧ voters proposal = []
       ∧ created_at proposal = ic_time env
       ∧ updated_at proposal = None
       ∧ storage_get st' (id proposal) = Some proposal
       ∧ ∀ k, k ≠ id proposal → st' !! k = st !! k).
Proof.
  unfold createProposal. split.
  - intros [Ht | Hd].
    + by rewrite Ht.
    + rewrite Hd. by rewrite orb_true_r.
  - intros Ht Hd.
    apply not_false_iff in Ht. apply not_false_iff in Hd. rewrite Ht, Hd. simpl.
    eexists _, _. split; [reflexivity|]. simpl.
    repeat (split; [reflexivity|]).
    unfold storage_get, storage_insert. split.
    + apply lookup_insert_eq.
    + intros k Hk. by apply lookup_insert_ne.
Qed.

Lemma createProposal_spec_witness :
  ∃ proposal st',
    createProposal Scenario.as_alice ∅ Scenario.payload = (Ok proposal, st')
    ∧ id proposal = Scenario.p1
    ∧ owner proposal = Scenario.alice
    ∧ yesVotes proposal = 0
    ∧ noVotes proposal = 0
    ∧ voters proposal = []
    ∧ updated_at proposal = None
    ∧ storage_get st' Scenario.p1 = Some proposal.
Proof.
  destruct (createProposal_spec Scenario.as_alice ∅ Scenario.payload)
    as [_ Hcreated].
  destruct Hcreated as
    (proposal & st' & Hrun & Hid & Howner & _ & _ & Hyes & Hno & Hvoters
     & _ & Hupdated & Hget & _); [done | done |].
  exists proposal, st'. rewrite Hid in Hget. by repeat split.
Defined.

(** When the generated identifier is not yet a key, which is what the
    generator is relied on for, creation adds exactly one record. *)
Lemma createProposal_fresh (env : Env) (st st' : Storage)
    (payload : ProposalPayload) (proposal : Proposal) :
  st !! uuidv4 env = None →
  createProposal env st payload = (Ok proposal, st') →
  size st' = S (size st) ∧ st ⊆ st'.
Proof.
  intros Hfresh. unfold createProposal, storage_insert.
  destruct (not_ _ || not_ _); [congruence|]. simpl. intros [= <- <-].
  split; [by apply map_size_insert_None | by apply insert_subseteq].
Qed.

(** ** Updating *)

(** C7: [updateProposal] returns the failure "Invalid payload" when the
    title or the description is empty or white space only (the payload's
    fields are texts by their type), and returns a failure when no proposal
    is stored under the id; both times the storage is handed back as it
    was. A blank title is one of these cases. *)
Theorem updateProposal_rejects (env : Env) (st : Storage) (id_ : JsString)
    (payload : ProposalPayload) :
  (blank (payload_title payload) ∨ blank (payload_description payload) →
   updateProposal env st id_ payload = (Err (utf16 "Invalid payload"), st))
  ∧ (st !! id_ = None →
     ∃ e, updateProposal env st id_ payload = (Err e, st)).
Proof.
  unfold updateProposal. split.
  - intros H. apply isValidPayload_false_iff in H. by rewrite H.
  - intros Hnone. destruct (isValidPayload payload); simpl; [|by eexists].
    unfold storage_get. rewrite Hnone. by eexists.
Qed.

Lemma updateProposal_rejects_witness :
  updateProposal Scenario.as_bob Scenario.st1 Scenario.p1 Scenario.blank_title
  = (Err (utf16 "Invalid payload"), Scenario.st1).
Proof.
  apply (updateProposal_rejects Scenario.as_bob Scenario.st1 Scenario.p1
           Scenario.blank_title).
  left. repeat constructor.
Defined.

(** C8: for every stored proposal and every valid payload,
    [updateProposal] succeeds with a record that takes [title] and
    [description] from the payload and the time of the call as
    [updated_at], and agrees with the stored one on [owner], [id],
    [voters], [yesVotes], [noVotes] and [created_at]; that record replaces
    the stored one under the proposal's id. *)
Theorem updateProposal_frame (env : Env) (st : Storage) (id_ : JsString)
    (payload : ProposalPayload) (proposal : Proposal) :
  st !! id_ = Some proposal →
  isValidPayload payload = true →
  ∃ updated,
    updateProposal env st id_ payload
      = (Ok updated, <[id proposal := updated]> st)
    ∧ title updated = payload_title payload
    ∧ description updated = payload_description payload
    ∧ updated_at updated = Some (ic_time env)
    ∧ owner updated = owner proposal
    ∧ id updated = id proposal
    ∧ voters updated = voters proposal
    ∧ yesVotes updated = yesVotes proposal
    ∧ noVotes updated = noVotes proposal
    ∧ created_at updated = created_at proposal.
Proof.
  intros Hget Hvalid. unfold updateProposal, storage_get, storage_insert.
  rewrite Hvalid, Hget. simpl. eexists. split; [reflexivity|]. by simpl.
Qed.

Lemma updateProposal_frame_witness :
  ∃ updated,
    updateProposal Scenario.as_bob Scenario.st1 Scenario.p1 Scenario.payload
      = (Ok updated, <[id Scenario.created := updated]> Scenario.st1)
    ∧ title updated = payload_title Scenario.payload
    ∧ description updated = payload_description Scenario.payload
    ∧ updated_at updated = Some (ic_time Scenario.as_bob)
    ∧ owner updated = owner Scenario.created
    ∧ id updated = id Scenario.created
    ∧ voters updated = voters Scenario.created
    ∧ yesVotes updated = yesVotes Scenario.created
    ∧ noVotes updated = noVotes Scenario.created
    ∧ created_at updated = created_at Scenario.created.
Proof.
  apply (updateProposal_frame Scenario.as_bob Scenario.st1 Scenario.p1
           Scenario.payload Scenario.created); reflexivity.
Defined.

(** ** Failures *)

(** C9: a method reports a failure by returning [Err] (the methods are
    total functions into [Result], nothing is raised), and a call that
    returns [Err] hands back the storage it was given: no key is added,
    removed or rebound on a failing path of [createProposal], [voteYes],
    [voteNo], [updateProposal] or [deleteProposal]. *)
Theorem failure_leaves_storage (env : Env) (call : Call) (st st' : Storage)
    (e : JsString) :
  run env call st = (Err e, st') → st' = st.
Proof.
  destruct call as [payload | id_ | id_ | id_ payload | id_ user]; simpl.
  - unfold createProposal. method_cases; congruence.
  - unfold voteYes, storage_get. method_cases; congruence.
  - unfold voteNo, storage_get. method_cases; congruence.
  - unfold updateProposal, storage_get. method_cases; congruence.
  - unfold deleteProposal, storage_get, storage_remove.
    destruct (not_ id_); [congruence|].
    destruct (st !! id_) as [proposal|] eqn:Hget; simpl.
    + destruct (heap env =? address user); congruence.
    + congruence.
Qed.

Lemma failure_leaves_storage_witness :
  run Scenario.as_alice (VoteYes Scenario.p1) Scenario.st1
    = (Err (utf16 "Owners cannot vote for their own proposal"), Scenario.st1)
  ∧ Scenario.st1 = Scenario.st1.
Proof.
  split; [reflexivity|].
  apply (failure_leaves_storage Scenario.as_alice (VoteYes Scenario.p1)
           Scenario.st1 Scenario.st1
           (utf16 "Owners cannot vote for their own proposal")).
  reflexivity.
Defined.

(** ** Records are filed under their own id *)

Lemma keyed_by_id_empty : keyed_by_id ∅.
Proof. intros k proposal Hget. by rewrite lookup_empty in Hget. Qed.

Lemma keyed_by_id_insert (st : Storage) (proposal : Proposal) :
  keyed_by_id st → keyed_by_id (<[id proposal := proposal]> st).
Proof.
  intros Hst k q Hget. apply lookup_insert_Some in Hget as [[<- <-] | [_ Hget]].
  - reflexivity.
  - by apply Hst.
Qed.

Lemma keyed_by_id_delete (st : Storage) (k : JsString) :
  keyed_by_id st → keyed_by_id (delete k st).
Proof.
  intros Hst k' q Hget. apply lookup_delete_Some in Hget as [_ Hget].
  by apply Hst.
Qed.

Lemma run_keyed_by_id (env : Env) (call : Call) (st : Storage) :
  keyed_by_id st → keyed_by_id (run env call st).2.
Proof.
  intros Hst.
  destruct call as [payload | id_ | id_ | id_ payload | id_ user]; simpl.
  - unfold createProposal. method_cases; simpl; [done|].
    apply (keyed_by_id_insert st (Build_Proposal _ _ _ _ _ _ _ _ _) Hst).
  - unfold voteYes, storage_get. method_cases; simpl; try done.
    apply (keyed_by_id_insert st (Build_Proposal _ _ _ _ _ _ _ _ _) Hst).
  - unfold voteNo, storage_get. method_cases; simpl; try done.
    apply (keyed_by_id_insert st (Build_Proposal _ _ _ _ _ _ _ _ _) Hst).
  - unfold updateProposal, storage_get. method_cases; simpl; try done.
    apply (keyed_by_id_insert st (Build_Proposal _ _ _ _ _ _ _ _ _) Hst).
  - unfold deleteProposal, storage_get, storage_remove.
    destruct (not_ id_); [done|].
    destruct (looseEq _ user); [|done].
    destruct (st !! id_); simpl; by apply keyed_by_id_delete.
Qed.

Lemma run_calls_keyed_by_id (calls : list (Env * Call)) (st : Storage) :
  keyed_by_id st → keyed_by_id (run_calls calls st).
Proof.
  revert st. induction calls as [|[env call] calls IH]; intros st Hst; simpl.
  - done.
  - apply IH. by apply run_keyed_by_id.
Qed.

(** C10: in the storage the canister starts with and after every history
    of calls, each key is bound to a record whose [id] is that key; and
    each method keeps it so, since every [insert] is made under the id of
    the record inserted. *)
Theorem storage_keyed_by_id :
  (∀ calls : list (Env * Call), keyed_by_id (run_calls calls ∅))
  ∧ (∀ (env : Env) (call : Call) (st : Storage),
       keyed_by_id st → keyed_by_id (run env call st).2).
Proof.
  split.
  - intros calls. apply run_calls_keyed_by_id, keyed_by_id_empty.
  - apply run_keyed_by_id.
Qed.

(** ** Votes and the list of voters *)

(** What a successful [voteYes] does: one more yes vote and a new
    [updated_at]; the list of voters is copied as it is. *)
Lemma voteYes_effect (env : Env) (st st' : Storage) (id_ : JsString)
    (voted : Proposal) :
  voteYes env st id_ = (Ok voted, st') →
  ∃ proposal,
    st !! id_ = Some proposal
    ∧ owner proposal ≠ ic_caller env
    ∧ voters voted = voters proposal
    ∧ yesVotes voted = yesVotes proposal + 1
    ∧ noVotes voted = noVotes proposal
    ∧ updated_at voted = Some (ic_time env)
    ∧ st' = <[id proposal := voted]> st.
Proof.
  unfold voteYes, storage_get, storage_insert.
  destruct (st !! id_) as [proposal|]; [|congruence].
  destruct (strictEq (owner proposal) (ic_caller env)) eqn:Howner; [congruence|].
  destruct (includes (voters proposal) (ic_caller env)); [congruence|].
  intros [= <- <-]. exists proposal. simpl.
  by apply strictEq_false_iff in Howner.
Qed.

Lemma voteNo_effect (env : Env) (st st' : Storage) (id_ : JsString)
    (voted : Proposal) :
  voteNo env st id_ = (Ok voted, st') →
  ∃ proposal,
    st !! id_ = Some proposal
    ∧ owner proposal ≠ ic_caller env
    ∧ voters voted = voters proposal
    ∧ yesVotes voted = yesVotes proposal
    ∧ noVotes voted = noVotes proposal + 1
    ∧ updated_at voted = Some (ic_time env)
    ∧ st' = <[id proposal := voted]> st.
Proof.
  unfold voteNo, storage_get, storage_insert.
  destruct (st !! id_) as [proposal|]; [|congruence].
  destruct (strictEq (owner proposal) (ic_caller env)) eqn:Howner; [congruence|].
  destruct (includes (voters proposal) (ic_caller env)); [congruence|].
  intros [= <- <-]. exists proposal. simpl.
  by apply strictEq_false_iff in Howner.
Qed.

Lemma no_voters_insert (st : Storage) (k : JsString) (proposal : Proposal) :
  no_voters st → voters proposal = [] → no_voters (<[k := proposal]> st).
Proof.
  intros Hst Hp k' q Hget.
  apply lookup_insert_Some in Hget as [[_ <-] | [_ Hget]]; [done|].
  by apply (Hst k').
Qed.

Lemma run_no_voters (env : Env) (call : Call) (st : Storage) :
  no_voters st → no_voters (run env call st).2.
Proof.
  intros Hst.
  destruct call as [payload | id_ | id_ | id_ payload | id_ user]; simpl.
  - unfold createProposal. method_cases; simpl; [done|].
    by apply no_voters_insert.
  - unfold voteYes, storage_get. method_cases; simpl; try done.
    apply no_voters_insert; [done|]. simpl. by eapply Hst.
  - unfold voteNo, storage_get. method_cases; simpl; try done.
    apply no_voters_insert; [done|]. simpl. by eapply Hst.
  - unfold updateProposal, storage_get. method_cases; simpl; try done.
    apply no_voters_insert; [done|]. simpl. by eapply Hst.
  - unfold deleteProposal, storage_get, storage_remove.
    destruct (not_ id_); [done|].
    destruct (looseEq _ user); [|done].
    assert (no_voters (delete id_ st)) as Hdel.
    { intros k q Hget. apply lookup_delete_Some in Hget as [_ Hget].
      by apply (Hst k). }
    by destruct (st !! id_).
Qed.

(** Whatever the history, every stored proposal has an empty list of
    voters. *)
Lemma voters_never_recorded (calls : list (Env * Call)) (k : JsString)
    (proposal : Proposal) :
  run_calls calls ∅ !! k = Some proposal → voters proposal = [].
Proof.
  assert (∀ st, no_voters st → no_voters (run_calls calls st)) as Hinv.
  { induction calls as [|[env call] calls IH]; intros st Hst; simpl; [done|].
    apply IH. by apply run_no_voters. }
  apply Hinv. intros k' q Hget. by rewrite lookup_empty in Hget.
Qed.

(** Hence a vote by a principal other than the owner is accepted however
    often that principal has voted before. *)
Lemma vote_always_accepted (calls : list (Env * Call)) (env : Env)
    (id_ : JsString) (proposal : Proposal) :
  run_calls calls ∅ !! id_ = Some proposal →
  owner proposal ≠ ic_caller env →
  (∃ voted st', voteYes env (run_calls calls ∅) id_ = (Ok voted, st'))
  ∧ (∃ voted st', voteNo env (run_calls calls ∅) id_ = (Ok voted, st')).
Proof.
  intros Hget Howner. unfold voteYes, voteNo, storage_get. rewrite Hget.
  apply strictEq_false_iff in Howner. rewrite Howner.
  rewrite (voters_never_recorded calls id_ proposal Hget). simpl.
  split; by eexists _, _.
Qed.

(** C1: Alice creates a proposal and Bob casts one yes vote, both calls
    succeeding. The stored proposal then counts one vote and lists no
    voter. *)
Theorem tally_outgrows_voters :
  ∃ voted st2,
    voteYes Scenario.as_bob Scenario.st1 Scenario.p1 = (Ok voted, st2)
    ∧ st2 !! Scenario.p1 = Some voted
    ∧ tally voted = 1
    ∧ voters voted = []
    ∧ ¬ tally_matches_voters voted.
Proof.
  eexists _, _. split; [reflexivity|].
  split; [reflexivity|]. split; [reflexivity|]. split; [reflexivity|].
  unfold tally_matches_voters. by vm_compute.
Qed.

(** C2: Bob is neither the owner of Alice's proposal nor among its
    voters. His [voteYes] (his [voteNo]) succeeds, adds one to [yesVotes]
    (to [noVotes]), sets [updated_at] to the time of the call, stores the
    record and returns it, and the [voters] of that record do not contain
    Bob. *)
Theorem vote_omits_caller :
  (∃ voted st2,
     voteYes Scenario.as_bob Scenario.st1 Scenario.p1 = (Ok voted, st2)
     ∧ st2 !! Scenario.p1 = Some voted
     ∧ yesVotes voted = yesVotes Scenario.created + 1
     ∧ updated_at voted = Some (ic_time Scenario.as_bob)
     ∧ ic_caller Scenario.as_bob ∉ voters voted)
  ∧ (∃ voted st2,
       voteNo Scenario.as_bob Scenario.st1 Scenario.p1 = (Ok voted, st2)
       ∧ st2 !! Scenario.p1 = Some voted
       ∧ noVotes voted = noVotes Scenario.created + 1
       ∧ updated_at voted = Some (ic_time Scenario.as_bob)
       ∧ ic_caller Scenario.as_bob ∉ voters voted).
Proof.
  split; eexists _, _; (split; [reflexivity|]);
    repeat (split; [reflexivity|]); simpl; apply not_elem_of_nil.
Qed.

(** C3: Bob votes yes on Alice's proposal and then votes again. The second
    call, be it [voteYes] or [voteNo], succeeds and counts a further
    vote. *)
Theorem second_vote_accepted :
  ∃ st2,
    (voteYes Scenario.as_bob Scenario.st1 Scenario.p1).2 = st2
    ∧ (∃ voted st3,
         voteYes Scenario.as_bob_later st2 Scenario.p1 = (Ok voted, st3)
         ∧ yesVotes voted = 2 ∧ noVotes voted = 0)
    ∧ (∃ voted st3,
         voteNo Scenario.as_bob_later st2 Scenario.p1 = (Ok voted, st3)
         ∧ yesVotes voted = 1 ∧ noVotes voted = 1).
Proof.
  eexists. split; [reflexivity|].
  split; eexists _, _; (split; [reflexivity|]); by vm_compute.
Qed.

(** ** Deleting *)

(** The owner read back from the storage is an object made during the
    call, the [user] argument an object made before it: [==] tells them
    apart whatever principals they denote, and [deleteProposal] takes its
    failing branch. *)
Lemma deleteProposal_never_succeeds (env : Env) (st : Storage) (id_ : JsString)
    (user : PrincipalObject) :
  address user < heap env →
  deleteProposal env st id_ user
  = (Err (if not_ id_ then utf16 "id is required"
          else utf16 "couldn't delete a proposal ,proposal not found."), st).
Proof.
  intros Hlt. unfold deleteProposal, storage_get.
  destruct (not_ id_); [done|].
  destruct (st !! id_) as [proposal|]; simpl; [|done].
  assert ((heap env =? address user) = false) as -> by (apply N.eqb_neq; lia).
  done.
Qed.

(** Were the two objects one and the same, the record would be removed
    and returned. *)
Lemma deleteProposal_same_object (env : Env) (st : Storage) (id_ : JsString)
    (user : PrincipalObject) (proposal : Proposal) :
  id_ ≠ [] →
  st !! id_ = Some proposal →
  address user = heap env →
  deleteProposal env st id_ user = (Ok proposal, delete id_ st).
Proof.
  intros Hid Hget Haddr. unfold deleteProposal, storage_get, storage_remove.
  apply not_false_iff in Hid. rewrite Hid, Hget. simpl.
  by rewrite Haddr, N.eqb_refl.
Qed.

Lemma run_keeps_keys (env : Env) (call : Call) (st : Storage) (k : JsString) :
  well_formed env call → is_Some (st !! k) → is_Some ((run env call st).2 !! k).
Proof.
  intros Hwf Hk.
  assert (∀ q, is_Some (<[id q := q]> st !! k)) as Hins.
  { intros q. rewrite lookup_insert. by case_decide. }
  destruct call as [payload | id_ | id_ | id_ payload | id_ user]; simpl.
  - unfold createProposal, storage_insert. method_cases; simpl; [done|].
    apply (Hins (Build_Proposal _ _ _ _ _ _ _ _ _)).
  - unfold voteYes, storage_get, storage_insert. method_cases; simpl; try done.
    apply (Hins (Build_Proposal _ _ _ _ _ _ _ _ _)).
  - unfold voteNo, storage_get, storage_insert. method_cases; simpl; try done.
    apply (Hins (Build_Proposal _ _ _ _ _ _ _ _ _)).
  - unfold updateProposal, storage_get, storage_insert.
    method_cases; simpl; try done.
    apply (Hins (Build_Proposal _ _ _ _ _ _ _ _ _)).
  - simpl in Hwf. by rewrite deleteProposal_never_succeeds.
Qed.

(** So, in a history whose calls are well formed, a key once bound stays
    bound: no proposal ever leaves the storage. *)
Lemma nothing_is_ever_deleted (calls : list (Env * Call)) (st : Storage)
    (k : JsString) :
  Forall (λ ec, well_formed ec.1 ec.2) calls →
  is_Some (st !! k) → is_Some (run_calls calls st !! k).
Proof.
  intros Hwf. revert st.
  induction Hwf as [|[env call] calls Hcall _ IH]; intros st Hk; simpl; [done|].
  apply IH. by apply run_keeps_keys.
Qed.

(** C6: Alice owns the stored proposal [p1] and asks for its deletion,
    passing her own principal. The call fails with the message it also
    gives for an absent proposal, and [p1] is still there. *)
Theorem owner_cannot_delete :
  Scenario.st1 !! Scenario.p1 = Some Scenario.created
  ∧ toString Scenario.alice_arg = owner Scenario.created
  ∧ well_formed Scenario.as_alice
      (DeleteProposal Scenario.p1 Scenario.alice_arg)
  ∧ deleteProposal Scenario.as_alice Scenario.st1 Scenario.p1 Scenario.alice_arg
    = (Err (utf16 "couldn't delete a proposal ,proposal not found."),
       Scenario.st1)
  ∧ deleteProposal Scenario.as_alice ∅ Scenario.p1 Scenario.alice_arg
    = (Err (utf16 "couldn't delete a proposal ,proposal not found."), ∅)
  ∧ getProposal Scenario.st1 Scenario.p1 = Ok Scenario.created.
Proof. repeat split; reflexivity. Qed.

(** ** The first revision *)

(** In [src/index.ts] the owner's vote is counted. *)
Lemma index_owner_vote_accepted :
  owner Scenario.created = ic_caller Scenario.as_alice
  ∧ ∃ voted st2,
      SrcIndex.voteYes Scenario.as_alice Scenario.st1 Scenario.p1 = (Ok voted, st2)
      ∧ st2 !! Scenario.p1 = Some voted
      ∧ yesVotes voted = 1.
Proof. split; [reflexivity|]. eexists _, _. repeat split; reflexivity. Qed.

(** In [src/index.ts] a payload is stored as it comes, blank title or
    not. *)
Lemma index_blank_title_accepted :
  blank (payload_title Scenario.blank_title)
  ∧ ∃ updated st2,
      SrcIndex.updateProposal Scenario.as_bob Scenario.st1 Scenario.p1
        Scenario.blank_title = (Ok updated, st2)
      ∧ st2 !! Scenario.p1 = Some updated
      ∧ title updated = utf16 "   ".
Proof.
  split; [repeat constructor|]. eexists _, _. repeat split; reflexivity.
Qed.

(** In [src/index.ts] whoever calls [deleteProposal] removes the record. *)
Lemma index_delete_by_anyone (st : Storage) (id_ : JsString) (proposal : Proposal) :
  st !! id_ = Some proposal →
  SrcIndex.deleteProposal st id_ = (Ok proposal, delete id_ st).
Proof.
  intros Hget. unfold SrcIndex.deleteProposal, storage_remove. by rewrite Hget.
Qed.

(** The votes of [src/index.ts] leave [voters] alone as well. *)
Lemma index_second_vote_accepted :
  ∃ st2,
    (SrcIndex.voteYes Scenario.as_bob Scenario.st1 Scenario.p1).2 = st2
    ∧ ∃ voted st3,
        SrcIndex.voteYes Scenario.as_bob_later st2 Scenario.p1 = (Ok voted, st3)
        ∧ yesVotes voted = 2
        ∧ voters voted = [].
Proof.
  eexists. split; [reflexivity|]. eexists _, _. repeat split; reflexivity.
Qed.

Lemma index_failure_leaves_storage (env : Env) (call : Call) (st st' : Storage)
    (e : JsString) :
  SrcIndexRun.run env call st = (Err e, st') → st' = st.
Proof.
  destruct call as [payload | id_ | id_ | id_ payload | id_ user]; simpl.
  - unfold SrcIndex.createProposal. method_cases; congruence.
  - unfold SrcIndex.voteYes, storage_get. method_cases; congruence.
  - unfold SrcIndex.voteNo, storage_get. method_cases; congruence.
  - unfold SrcIndex.updateProposal, storage_get. method_cases; congruence.
  - unfold SrcIndex.deleteProposal, storage_remove.
    destruct (st !! id_) eqn:Hget; [congruence|].
    intros [= _ <-]. by apply delete_id.
Qed.

Lemma index_run_keyed_by_id (env : Env) (call : Call) (st : Storage) :
  keyed_by_id st → keyed_by_id (SrcIndexRun.run env call st).2.
Proof.
  intros Hst.
  destruct call as [payload | id_ | id_ | id_ payload | id_ user]; simpl.
  - unfold SrcIndex.createProposal. method_cases; simpl; [done|].
    apply (keyed_by_id_insert st (Build_Proposal _ _ _ _ _ _ _ _ _) Hst).
  - unfold SrcIndex.voteYes, storage_get. method_cases; simpl; try done.
    apply (keyed_by_id_insert st (Build_Proposal _ _ _ _ _ _ _ _ _) Hst).
  - unfold SrcIndex.voteNo, storage_get. method_cases; simpl; try done.
    apply (keyed_by_id_insert st (Build_Proposal _ _ _ _ _ _ _ _ _) Hst).
  - unfold SrcIndex.updateProposal, storage_get. method_cases; simpl; try done.
    apply (keyed_by_id_insert st (Build_Proposal _ _ _ _ _ _ _ _ _) Hst).
  - unfold SrcIndex.deleteProposal, storage_remove.
    destruct (st !! id_); simpl; by apply keyed_by_id_delete.
Qed.

(** * Further properties *)

(** ** Reading the storage *)

(** [getProposals] always succeeds; it lists as many proposals as the
    storage has keys, and a proposal is listed exactly when it is stored
    under some key. *)
Theorem getProposals_lists_storage (st : Storage) :
  ∃ listed,
    getProposals st = Ok listed
    ∧ length listed = size st
    ∧ ∀ proposal, proposal ∈ listed ↔ ∃ k, st !! k = Some proposal.
Proof.
  exists (storage_values st). unfold getProposals, storage_values.
  split; [done|]. split.
  - by rewrite length_fmap, length_map_to_list.
  - intros proposal. rewrite list_elem_of_fmap. split.
    + intros ([k q] & -> & Hin). exists k. by apply elem_of_map_to_list.
    + intros (k & Hget). exists (k, proposal).
      split; [done | by apply elem_of_map_to_list].
Qed.

Lemma keyed_values_ids (st : Storage) :
  keyed_by_id st → id <$> storage_values st = (map_to_list st).*1.
Proof.
  intros Hst. unfold storage_values. rewrite <- list_fmap_compose.
  apply list_fmap_ext. intros i [k proposal] Hin. simpl.
  apply list_elem_of_lookup_2, elem_of_map_to_list in Hin. by apply Hst.
Qed.

(** After any history, the proposals that [getProposals] lists have
    pairwise distinct ids. *)
Theorem getProposals_distinct_ids (calls : list (Env * Call)) :
  ∃ listed,
    getProposals (run_calls calls ∅) = Ok listed ∧ NoDup (id <$> listed).
Proof.
  exists (storage_values (run_calls calls ∅)). split; [done|].
  rewrite keyed_values_ids.
  - apply NoDup_fst_map_to_list.
  - apply run_calls_keyed_by_id, keyed_by_id_empty.
Qed.

(** After any history, a listed proposal with a non-empty id is what
    [getProposal] returns for that id. *)
Theorem listed_proposal_is_fetchable (calls : list (Env * Call))
    (listed : list Proposal) (proposal : Proposal) :
  getProposals (run_calls calls ∅) = Ok listed →
  proposal ∈ listed →
  id proposal ≠ [] →
  getProposal (run_calls calls ∅) (id proposal) = Ok proposal.
Proof.
  intros [= <-] Hin Hid. unfold storage_values in Hin.
  apply list_elem_of_fmap in Hin as ([k q] & -> & Hin). simpl in *.
  apply elem_of_map_to_list in Hin.
  assert (id q = k) as Hk
    by (eapply run_calls_keyed_by_id; [apply keyed_by_id_empty | done]).
  unfold getProposal, storage_get. apply not_false_iff in Hid.
  by rewrite Hid, Hk, Hin.
Qed.

Lemma listed_proposal_is_fetchable_witness :
  getProposal
    (run_calls [(Scenario.as_alice, CreateProposal Scenario.payload)] ∅)
    (id Scenario.created)
  = Ok Scenario.created.
Proof.
  apply (listed_proposal_is_fetchable
           [(Scenario.as_alice, CreateProposal Scenario.payload)]
           [Scenario.created] Scenario.created).
  - reflexivity.
  - apply list_elem_of_here.
  - discriminate.
Defined.

(** After any history, what [getProposal] returns for an id is a proposal
    that carries this id and that [getProposals] lists. *)
Theorem fetched_proposal_is_listed (calls : list (Env * Call)) (id_ : JsString)
    (proposal : Proposal) :
  getProposal (run_calls calls ∅) id_ = Ok proposal →
  id proposal = id_
  ∧ ∃ listed,
      getProposals (run_calls calls ∅) = Ok listed ∧ proposal ∈ listed.
Proof.
  unfold getProposal, storage_get. destruct (not_ id_); [done|].
  destruct (run_calls calls ∅ !! id_) as [q|] eqn:Hget; [|done].
  intros [= <-]. split.
  - eapply run_calls_keyed_by_id; [apply keyed_by_id_empty | done].
  - destruct (getProposals_lists_storage (run_calls calls ∅))
      as (listed & Hlist & _ & Hmem).
    exists listed. split; [done|]. apply Hmem. by exists id_.
Qed.

Lemma fetched_proposal_is_listed_witness :
  id Scenario.created = Scenario.p1
  ∧ ∃ listed,
      getProposals
        (run_calls [(Scenario.as_alice, CreateProposal Scenario.payload)] ∅)
      = Ok listed
      ∧ Scenario.created ∈ listed.
Proof.
  apply (fetched_proposal_is_listed
           [(Scenario.as_alice, CreateProposal Scenario.payload)]
           Scenario.p1 Scenario.created).
  reflexivity.
Defined.

(** [getProposal] refuses the empty id with "Invalid id" whatever the
    storage holds, and answers an id that is not a key with a message
    that quotes the id. *)
Theorem getProposal_failures (st : Storage) (id_ : JsString) :
  (id_ = [] → getProposal st id_ = Err (utf16 "Invalid id"))
  ∧ (id_ ≠ [] → st !! id_ = None →
     getProposal st id_
     = Err (utf16 "a proposal with id=" ++ id_ ++ utf16 " not found")).
Proof.
  unfold getProposal, storage_get. split.
  - by intros ->.
  - intros Hid Hget. apply not_false_iff in Hid. by rewrite Hid, Hget.
Qed.

(** ** Creating, once more *)

(** A proposal just created is what [getProposal] returns for its id,
    provided the generated id is not the empty text; reads of other ids
    are as before. *)
Theorem created_proposal_is_fetchable (env : Env) (st st' : Storage)
    (payload : ProposalPayload) (proposal : Proposal) :
  createProposal env st payload = (Ok proposal, st') →
  uuidv4 env ≠ [] →
  getProposal st' (id proposal) = Ok proposal
  ∧ ∀ k, k ≠ id proposal → getProposal st' k = getProposal st k.
Proof.
  unfold createProposal, storage_insert.
  destruct (not_ _ || not_ _); [congruence|]. simpl.
  intros [= <- <-] Hid. simpl. unfold getProposal, storage_get. split.
  - apply not_false_iff in Hid. by rewrite Hid, lookup_insert_eq.
  - intros k Hk. by rewrite lookup_insert_ne.
Qed.

Lemma created_proposal_is_fetchable_witness :
  getProposal Scenario.st1 (id Scenario.created) = Ok Scenario.created
  ∧ ∀ k, k ≠ id Scenario.created →
         getProposal Scenario.st1 k = getProposal ∅ k.
Proof.
  apply (created_proposal_is_fetchable Scenario.as_alice ∅ Scenario.st1
           Scenario.payload Scenario.created).
  - reflexivity.
  - discriminate.
Defined.

(** [createProposal] does not look whether the generated id is taken: if
    it is, the call still succeeds, and the record that was stored under
    the id is replaced by the new one, with the new caller as owner and
    both counters at zero; the number of stored proposals stays the
    same. *)
Theorem createProposal_replaces_on_collision (env : Env) (st : Storage)
    (payload : ProposalPayload) (old : Proposal) :
  st !! uuidv4 env = Some old →
  payload_title payload ≠ [] →
  payload_description payload ≠ [] →
  ∃ proposal st',
    createProposal env st payload = (Ok proposal, st')
    ∧ st' !! uuidv4 env = Some proposal
    ∧ owner proposal = ic_caller env
    ∧ yesVotes proposal = 0
    ∧ noVotes proposal = 0
    ∧ updated_at proposal = None
    ∧ size st' = size st.
Proof.
  intros Hold Ht Hd. unfold createProposal, storage_insert.
  apply not_false_iff in Ht. apply not_false_iff in Hd. rewrite Ht, Hd. simpl.
  eexists _, _. split; [reflexivity|]. simpl.
  split; [apply lookup_insert_eq|]. repeat (split; [reflexivity|]).
  by eapply map_size_insert_Some.
Qed.

Lemma createProposal_replaces_on_collision_witness :
  ∃ proposal st',
    createProposal Cases.as_bob_same_id Scenario.st1 Cases.other_payload
    = (Ok proposal, st')
    ∧ st' !! uuidv4 Cases.as_bob_same_id = Some proposal
    ∧ owner proposal = ic_caller Cases.as_bob_same_id
    ∧ yesVotes proposal = 0
    ∧ noVotes proposal = 0
    ∧ updated_at proposal = None
    ∧ size st' = size Scenario.st1.
Proof.
  apply (createProposal_replaces_on_collision Cases.as_bob_same_id
           Scenario.st1 Cases.other_payload Scenario.created).
  - reflexivity.
  - discriminate.
  - discriminate.
Defined.

(** ** The two validations *)

Lemma not_blank_iff (s : JsString) : ¬ blank s ↔ has_ink s.
Proof.
  unfold blank, has_ink. induction s as [|c s IH].
  - split; [intros H; destruct H; constructor|].
    intros (c & Hc & _). by apply elem_of_nil in Hc.
  - destruct (isWhiteSpace c) eqn:Hc.
    + split.
      * intros H. destruct IH as [IH _].
        destruct IH as (d & Hd & Hink).
        { intros Hs. apply H. by constructor. }
        exists d. split; [by apply list_elem_of_further | done].
      * intros (d & Hd & Hink) Hall.
        apply elem_of_cons in Hd as [-> | Hd]; [congruence|].
        apply IH; [by exists d | by inversion Hall].
    + split.
      * intros _. exists c. split; [apply list_elem_of_here | done].
      * intros _ Hall. inversion Hall. congruence.
Qed.

(** [isValidPayload] accepts a payload exactly when its title and its
    description each have a code unit that is not white space. *)
Theorem isValidPayload_accepts_iff (payload : ProposalPayload) :
  isValidPayload payload = true
  ↔ has_ink (payload_title payload) ∧ has_ink (payload_description payload).
Proof.
  rewrite isValidPayload_true_iff. by rewrite !not_blank_iff.
Qed.

Lemma blank_not_nil (s : JsString) : ¬ blank s → s ≠ [].
Proof. intros H ->. apply H. constructor. Qed.

(** Whatever [updateProposal] accepts as a payload, [createProposal]
    accepts as well. *)
Theorem valid_payload_creates (env : Env) (st : Storage)
    (payload : ProposalPayload) :
  isValidPayload payload = true →
  ∃ proposal st', createProposal env st payload = (Ok proposal, st').
Proof.
  intros Hvalid. apply isValidPayload_true_iff in Hvalid as [Ht Hd].
  apply blank_not_nil, not_false_iff in Ht.
  apply blank_not_nil, not_false_iff in Hd.
  unfold createProposal. rewrite Ht, Hd. simpl. by eexists _, _.
Qed.

Lemma valid_payload_creates_witness :
  ∃ proposal st',
    createProposal Scenario.as_alice ∅ Scenario.payload = (Ok proposal, st').
Proof.
  apply (valid_payload_creates Scenario.as_alice ∅ Scenario.payload).
  reflexivity.
Defined.

(** The converse fails: [createProposal] tests for empty texts only. A
    payload whose title or description is white space, but not empty, is
    stored by [createProposal], texts as given, and the same payload is
    then refused by [updateProposal] for the proposal just created, which
    stays as it is. *)
Theorem blank_text_created_not_updated (env env' : Env) (st : Storage)
    (payload : ProposalPayload) :
  payload_title payload ≠ [] →
  payload_description payload ≠ [] →
  blank (payload_title payload) ∨ blank (payload_description payload) →
  ∃ proposal st',
    createProposal env st payload = (Ok proposal, st')
    ∧ title proposal = payload_title payload
    ∧ description proposal = payload_description payload
    ∧ updateProposal env' st' (id proposal) payload
      = (Err (utf16 "Invalid payload"), st').
Proof.
  intros Ht Hd Hblank. unfold createProposal.
  apply not_false_iff in Ht. apply not_false_iff in Hd. rewrite Ht, Hd. simpl.
  eexists _, _. split; [reflexivity|]. simpl.
  split; [done|]. split; [done|].
  apply isValidPayload_false_iff in Hblank.
  unfold updateProposal. by rewrite Hblank.
Qed.

Lemma blank_text_created_not_updated_witness :
  ∃ proposal st',
    createProposal Scenario.as_alice ∅ Cases.spaces_title = (Ok proposal, st')
    ∧ title proposal = payload_title Cases.spaces_title
    ∧ description proposal = payload_description Cases.spaces_title
    ∧ updateProposal Scenario.as_bob st' (id proposal) Cases.spaces_title
      = (Err (utf16 "Invalid payload"), st').
Proof.
  apply (blank_text_created_not_updated Scenario.as_alice Scenario.as_bob ∅
           Cases.spaces_title).
  - discriminate.
  - discriminate.
  - left. repeat constructor.
Defined.

(** ** Votes, once more *)



(** A call other than [createProposal], its arguments decoded before the
    body runs, leaves every stored proposal in place under its key, with
    the origin and the voters it had and with counters that are no
    smaller. *)
Theorem call_keeps_stored_proposals (env : Env) (call : Call) (st : Storage)
    (k : JsString) (proposal : Proposal) :
  keyed_by_id st →
  well_formed env call →
  is_create call = false →
  st !! k = Some proposal →
  ∃ proposal',
    (run env call st).2 !! k = Some proposal'
    ∧ origin proposal' = origin proposal
    ∧ voters proposal' = voters proposal
    ∧ yesVotes proposal ≤ yesVotes proposal'
    ∧ noVotes proposal ≤ noVotes proposal'.
Proof.
  intros Hst Hwf Hcall Hget.
  assert (∃ proposal',
            st !! k = Some proposal'
            ∧ origin proposal' = origin proposal
            ∧ voters proposal' = voters proposal
            ∧ yesVotes proposal ≤ yesVotes proposal'
            ∧ noVotes proposal ≤ noVotes proposal') as Hsame
    by (exists proposal; repeat split; (done || lia)).
  assert (∀ id_ q q',
            st !! id_ = Some q →
            origin q' = origin q → voters q' = voters q →
            yesVotes q ≤ yesVotes q' → noVotes q ≤ noVotes q' →
            ∃ proposal',
              <[id q := q']> st !! k = Some proposal'
              ∧ origin proposal' = origin proposal
              ∧ voters proposal' = voters proposal
              ∧ yesVotes proposal ≤ yesVotes proposal'
              ∧ noVotes proposal ≤ noVotes proposal') as Hins.
  { intros id_ q q' Hq Horigin Hvoters Hyes Hno.
    rewrite (Hst _ _ Hq). destruct (decide (id_ = k)) as [-> | Hne].
    - rewrite lookup_insert_eq. exists q'.
      assert (q = proposal) as -> by congruence. by repeat split.
    - by rewrite lookup_insert_ne. }
  destruct call as [payload | id_ | id_ | id_ payload | id_ user];
    simpl in *; [done | | | |].
  - unfold voteYes, storage_get, storage_insert.
    destruct (st !! id_) as [q|] eqn:Hq; [|done].
    destruct (strictEq _ _); [done|]. destruct (includes _ _); [done|].
    simpl. apply (Hins id_ q (with_yes env q)); (done || simpl; lia).
  - unfold voteNo, storage_get, storage_insert.
    destruct (st !! id_) as [q|] eqn:Hq; [|done].
    destruct (strictEq _ _); [done|]. destruct (includes _ _); [done|].
    simpl. apply (Hins id_ q (with_no env q)); (done || simpl; lia).
  - unfold updateProposal, storage_get, storage_insert.
    destruct (negb _); [done|].
    destruct (st !! id_) as [q|] eqn:Hq; [|done].
    simpl. apply (Hins id_ q (with_texts env payload q)); (done || simpl; lia).
  - by rewrite deleteProposal_never_succeeds.
Qed.

Lemma call_keeps_stored_proposals_witness :
  ∃ proposal',
    (run Scenario.as_bob (VoteNo Scenario.p1) Scenario.st1).2 !! Scenario.p1
    = Some proposal'
    ∧ origin proposal' = origin Scenario.created
    ∧ voters proposal' = voters Scenario.created
    ∧ yesVotes Scenario.created ≤ yesVotes proposal'
    ∧ noVotes Scenario.created ≤ noVotes proposal'.
Proof.
  apply (call_keeps_stored_proposals Scenario.as_bob (VoteNo Scenario.p1)
           Scenario.st1 Scenario.p1 Scenario.created).
  - exact (run_calls_keyed_by_id
             [(Scenario.as_alice, CreateProposal Scenario.payload)] ∅
             keyed_by_id_empty).
  - exact I.
  - reflexivity.
  - reflexivity.
Defined.

(** ** What holds of every stored proposal *)

Section StoredInvariant.

(** A property of proposals that the record of a [createProposal] served
    in an environment satisfying [E] has, and that the rewrites of the
    votes and of a validated update keep. *)
Context (E : Env → Prop) (Q : Proposal → Prop).
Hypothesis Q_fresh : ∀ env payload,
  E env →
  payload_title payload ≠ [] → payload_description payload ≠ [] →
  Q (fresh_record env payload).
Hypothesis Q_yes : ∀ env proposal, Q proposal → Q (with_yes env proposal).
Hypothesis Q_no : ∀ env proposal, Q proposal → Q (with_no env proposal).
Hypothesis Q_texts : ∀ env payload proposal,
  isValidPayload payload = true →
  Q proposal → Q (with_texts env payload proposal).

Lemma all_stored_insert (st : Storage) (k : JsString) (proposal : Proposal) :
  all_stored Q st → Q proposal → all_stored Q (<[k := proposal]> st).
Proof.
  intros Hst Hq k' q Hget.
  apply lookup_insert_Some in Hget as [[_ <-] | [_ Hget]]; [done|].
  by apply (Hst k').
Qed.

Lemma run_all_stored (env : Env) (call : Call) (st : Storage) :
  (is_create call = true → E env) →
  all_stored Q st → all_stored Q (run env call st).2.
Proof.
  intros Henv Hst.
  destruct call as [payload | id_ | id_ | id_ payload | id_ user]; simpl.
  - unfold createProposal, storage_insert.
    destruct (not_ (payload_title payload)) eqn:Ht; [done|].
    destruct (not_ (payload_description payload)) eqn:Hd; [done|].
    simpl. apply all_stored_insert; [done|].
    apply (Q_fresh env payload); [by apply Henv | |]; by apply not_false_iff.
  - unfold voteYes, storage_get, storage_insert.
    destruct (st !! id_) as [q|] eqn:Hq; [|done].
    destruct (strictEq _ _); [done|]. destruct (includes _ _); [done|].
    simpl. apply all_stored_insert; [done|]. apply Q_yes. by apply (Hst id_).
  - unfold voteNo, storage_get, storage_insert.
    destruct (st !! id_) as [q|] eqn:Hq; [|done].
    destruct (strictEq _ _); [done|]. destruct (includes _ _); [done|].
    simpl. apply all_stored_insert; [done|]. apply Q_no. by apply (Hst id_).
  - unfold updateProposal, storage_get, storage_insert.
    destruct (isValidPayload payload) eqn:Hvalid; [|done]. simpl.
    destruct (st !! id_) as [q|] eqn:Hq; [|done].
    simpl. apply all_stored_insert; [done|].
    apply Q_texts; [done|]. by apply (Hst id_).
  - unfold deleteProposal, storage_get, storage_remove.
    destruct (not_ id_); [done|]. destruct (looseEq _ user); [|done].
    assert (all_stored Q (delete id_ st)) as Hdel.
    { intros k q Hget. apply lookup_delete_Some in Hget as [_ Hget].
      by apply (Hst k). }
    by destruct (st !! id_).
Qed.

Lemma run_calls_all_stored (calls : list (Env * Call)) (st : Storage) :
  Forall (λ ec, is_create ec.2 = true → E ec.1) calls →
  all_stored Q st → all_stored Q (run_calls calls st).
Proof.
  intros Hcalls. revert st.
  induction Hcalls as [|[env call] calls Hcall _ IH]; intros st Hst; simpl.
  - done.
  - apply IH. by apply run_all_stored.
Qed.

End StoredInvariant.

Lemma all_stored_empty (Q : Proposal → Prop) : all_stored Q ∅.
Proof. intros k q Hget. by rewrite lookup_empty in Hget. Qed.



(** After any history, no stored proposal has an empty title or an empty
    description. *)
Theorem stored_texts_not_empty (calls : list (Env * Call)) (k : JsString)
    (proposal : Proposal) :
  run_calls calls ∅ !! k = Some proposal →
  title proposal ≠ [] ∧ description proposal ≠ [].
Proof.
  apply (run_calls_all_stored (λ _, True)
           (λ q, title q ≠ [] ∧ description q ≠ [])).
  - by intros env payload _ Ht Hd.
  - by intros env q Hq.
  - by intros env q Hq.
  - intros env payload q Hvalid _. simpl.
    apply isValidPayload_true_iff in Hvalid as [Ht Hd].
    split; by apply blank_not_nil.
  - apply Forall_forall. by intros ec _ _.
  - apply all_stored_empty.
Qed.

Lemma stored_texts_not_empty_witness :
  title Scenario.created ≠ [] ∧ description Scenario.created ≠ [].
Proof.
  apply (stored_texts_not_empty
           [(Scenario.as_alice, CreateProposal Scenario.payload)]
           Scenario.p1 Scenario.created).
  reflexivity.
Defined.

(** After any history, a stored proposal without [updated_at] has no
    votes: once a vote is counted, the proposal carries the time of some
    call as [updated_at]. *)
Theorem counted_vote_sets_updated_at (calls : list (Env * Call)) (k : JsString)
    (proposal : Proposal) :
  run_calls calls ∅ !! k = Some proposal →
  updated_at proposal = None →
  yesVotes proposal = 0 ∧ noVotes proposal = 0.
Proof.
  apply (run_calls_all_stored (λ _, True)
           (λ q, updated_at q = None → yesVotes q = 0 ∧ noVotes q = 0)).
  - by intros env payload _ _ _ _.
  - by intros env q _ [=].
  - by intros env q _ [=].
  - by intros env payload q _ _ [=].
  - apply Forall_forall. by intros ec _ _.
  - apply all_stored_empty.
Qed.

Lemma counted_vote_sets_updated_at_witness :
  yesVotes Scenario.created = 0 ∧ noVotes Scenario.created = 0.
Proof.
  apply (counted_vote_sets_updated_at
           [(Scenario.as_alice, CreateProposal Scenario.payload)]
           Scenario.p1 Scenario.created).
  - reflexivity.
  - reflexivity.
Defined.

(** ** The test for a second vote *)

(** Where the stored list of voters does name the caller, and the caller
    is not the owner, [voteYes] and [voteNo] fail with "Already voted" and
    leave the storage alone. *)
Theorem duplicate_vote_guard (env : Env) (st : Storage) (id_ : JsString)
    (proposal : Proposal) :
  st !! id_ = Some proposal →
  owner proposal ≠ ic_caller env →
  ic_caller env ∈ voters proposal →
  voteYes env st id_ = (Err (utf16 "Already voted"), st)
  ∧ voteNo env st id_ = (Err (utf16 "Already voted"), st).
Proof.
  intros Hget Howner Hin. unfold voteYes, voteNo, storage_get. rewrite Hget.
  apply strictEq_false_iff in Howner. apply includes_true_iff in Hin.
  by rewrite Howner, Hin.
Qed.

Lemma duplicate_vote_guard_witness :
  voteYes Scenario.as_bob Cases.st_with_voter Cases.p9
  = (Err (utf16 "Already voted"), Cases.st_with_voter)
  ∧ voteNo Scenario.as_bob Cases.st_with_voter Cases.p9
    = (Err (utf16 "Already voted"), Cases.st_with_voter).
Proof.
  apply (duplicate_vote_guard Scenario.as_bob Cases.st_with_voter Cases.p9
           Cases.with_voter).
  - reflexivity.
  - discriminate.
  - apply list_elem_of_here.
Defined.

Lemma hasVoted_includes (env : Env) (proposal : Proposal) :
  (0 <? length (SrcIndex.hasVoted env proposal))%nat
  = includes (voters proposal) (ic_caller env).
Proof.
  unfold SrcIndex.hasVoted, includes.
  induction (voters proposal) as [|v vs IH]; simpl; [done|].
  destruct (decide (v = ic_caller env)) as [Heq | Hne].
  - assert (strictEq v (ic_caller env) = true) as ->
      by by apply strictEq_true_iff.
    assert (strictEq (ic_caller env) v = true) as ->
      by by apply strictEq_true_iff.
    done.
  - assert (strictEq v (ic_caller env) = false) as ->
      by by apply strictEq_false_iff.
    assert (strictEq (ic_caller env) v = false) as ->
      by (apply strictEq_false_iff; congruence).
    apply IH.
Qed.

(** ** The two revisions side by side *)

(** For a caller who does not own the proposal under the id (or when
    there is none), [voteYes] and [voteNo] of [src/index.ts] return what
    the revised methods return: the two tests for a second vote, by
    [filter] and by [includes], decide alike. *)
Theorem revisions_agree_on_votes (env : Env) (st : Storage) (id_ : JsString) :
  (∀ proposal, st !! id_ = Some proposal → owner proposal ≠ ic_caller env) →
  SrcIndex.voteYes env st id_ = voteYes env st id_
  ∧ SrcIndex.voteNo env st id_ = voteNo env st id_.
Proof.
  intros Howner.
  unfold SrcIndex.voteYes, SrcIndex.voteNo, voteYes, voteNo, storage_get.
  destruct (st !! id_) as [proposal|] eqn:Hget; [|done].
  specialize (Howner proposal eq_refl). apply strictEq_false_iff in Howner.
  by rewrite Howner, hasVoted_includes.
Qed.

Lemma revisions_agree_on_votes_witness :
  SrcIndex.voteYes Scenario.as_bob Scenario.st1 Scenario.p1
  = voteYes Scenario.as_bob Scenario.st1 Scenario.p1
  ∧ SrcIndex.voteNo Scenario.as_bob Scenario.st1 Scenario.p1
    = voteNo Scenario.as_bob Scenario.st1 Scenario.p1.
Proof.
  apply (revisions_agree_on_votes Scenario.as_bob Scenario.st1 Scenario.p1).
  intros proposal Hget.
  assert (Scenario.st1 !! Scenario.p1 = Some Scenario.created) as Hcreated
    by reflexivity.
  rewrite Hcreated in Hget. injection Hget as <-. discriminate.
Defined.


(** ** [src/index.ts] on its own *)



(** In [src/index.ts], [deleteProposal] of a stored id returns the stored
    record and removes it alone; [getProposal] of that id then reports it
    as not found, and a second [deleteProposal] of it fails, naming the
    id, and changes nothing. *)
Theorem index_delete_then_read (st : Storage) (id_ : JsString)
    (proposal : Proposal) :
  st !! id_ = Some proposal →
  ∃ st',
    SrcIndex.deleteProposal st id_ = (Ok proposal, st')
    ∧ size st = S (size st')
    ∧ (∀ k, k ≠ id_ → st' !! k = st !! k)
    ∧ SrcIndex.getProposal st' id_
      = Err (utf16 "a proposal with id=" ++ id_ ++ utf16 " not found")
    ∧ SrcIndex.deleteProposal st' id_
      = (Err (utf16 "couldn't delete a proposal with id=" ++ id_
              ++ utf16 ". proposal not found."), st').
Proof.
  intros Hget. exists (delete id_ st).
  unfold SrcIndex.deleteProposal, SrcIndex.getProposal, storage_remove,
    storage_get.
  rewrite Hget, lookup_delete_eq, delete_delete_eq.
  split; [done|]. split.
  { rewrite <- (insert_delete_id st id_ proposal Hget) at 1.
    apply map_size_insert_None, lookup_delete_eq. }
  split; [|done]. intros k Hk. by apply lookup_delete_ne.
Qed.

Lemma index_delete_then_read_witness :
  ∃ st',
    SrcIndex.deleteProposal Scenario.st1 Scenario.p1 = (Ok Scenario.created, st')
    ∧ size Scenario.st1 = S (size st')
    ∧ (∀ k, k ≠ Scenario.p1 → st' !! k = Scenario.st1 !! k)
    ∧ SrcIndex.getProposal st' Scenario.p1
      = Err (utf16 "a proposal with id=" ++ Scenario.p1 ++ utf16 " not found")
    ∧ SrcIndex.deleteProposal st' Scenario.p1
      = (Err (utf16 "couldn't delete a proposal with id=" ++ Scenario.p1
              ++ utf16 ". proposal not found."), st').
Proof.
  apply (index_delete_then_read Scenario.st1 Scenario.p1 Scenario.created).
  reflexivity.
Defined.

(** In [src/index.ts], creating a proposal under an id that is not yet a
    key and deleting it again gives back the record and the storage there
    was before. *)
Theorem index_create_then_delete (env : Env) (st st' : Storage)
    (payload : ProposalPayload) (proposal : Proposal) :
  st !! uuidv4 env = None →
  SrcIndex.createProposal env st payload = (Ok proposal, st') →
  SrcIndex.deleteProposal st' (id proposal) = (Ok proposal, st).
Proof.
  intros Hfresh. unfold SrcIndex.createProposal, storage_insert.
  destruct (not_ _ || not_ _); [congruence|]. simpl. intros [= <- <-]. simpl.
  unfold SrcIndex.deleteProposal, storage_remove.
  rewrite lookup_insert_eq, delete_insert_eq. by rewrite delete_id.
Qed.

Lemma index_create_then_delete_witness :
  SrcIndex.deleteProposal Scenario.st1 (id Scenario.created)
  = (Ok Scenario.created, ∅).
Proof.
  apply (index_create_then_delete Scenario.as_alice ∅ Scenario.st1
           Scenario.payload Scenario.created).
  - reflexivity.
  - reflexivity.
Defined.

(** In [src/index.ts], [updateProposal] of a stored id takes any payload,
    empty texts included, whoever calls: the texts are replaced,
    [updated_at] is set, and owner, id, voters, counters and [created_at]
    stay. *)
Theorem index_update_takes_any_payload (env : Env) (st : Storage)
    (id_ : JsString) (payload : ProposalPayload) (proposal : Proposal) :
  st !! id_ = Some proposal →
  SrcIndex.updateProposal env st id_ payload
  = (Ok (with_texts env payload proposal),
     <[id proposal := with_texts env payload proposal]> st)
  ∧ title (with_texts env payload proposal) = payload_title payload
  ∧ description (with_texts env payload proposal) = payload_description payload
  ∧ origin (with_texts env payload proposal) = origin proposal
  ∧ voters (with_texts env payload proposal) = voters proposal
  ∧ tally (with_texts env payload proposal) = tally proposal.
Proof.
  intros Hget. unfold SrcIndex.updateProposal, storage_get, storage_insert.
  by rewrite Hget.
Qed.

Lemma index_update_takes_any_payload_witness :
  SrcIndex.updateProposal Scenario.as_bob Scenario.st1 Scenario.p1
    Cases.empty_payload
  = (Ok (with_texts Scenario.as_bob Cases.empty_payload Scenario.created),
     <[id Scenario.created
         := with_texts Scenario.as_bob Cases.empty_payload Scenario.created]>
       Scenario.st1)
  ∧ title (with_texts Scenario.as_bob Cases.empty_payload Scenario.created) = [].
Proof.
  destruct (index_update_takes_any_payload Scenario.as_bob Scenario.st1
              Scenario.p1 Cases.empty_payload Scenario.created)
    as (Hrun & Htitle & _).
  - reflexivity.
  - by split.
Defined.

(** After any history of [src/index.ts], every key is bound to a record
    whose [id] is that key. *)
Theorem index_storage_keyed_by_id (calls : list (Env * Call)) :
  keyed_by_id (SrcIndexRun.run_calls calls ∅).
Proof.
  assert (∀ st, keyed_by_id st → keyed_by_id (SrcIndexRun.run_calls calls st))
    as Hinv.
  { induction calls as [|[env call] calls IH]; intros st Hst; simpl; [done|].
    apply IH. by apply index_run_keyed_by_id. }
  apply Hinv, keyed_by_id_empty.
Qed.

(** ** What [trim] strips *)

Lemma trimStart_split (s : JsString) :
  ∃ pre, s = pre ++ trimStart s ∧ blank pre.
Proof.
  induction s as [|c s (pre & Hs & Hpre)]; simpl.
  - exists []. split; [done | constructor].
  - destruct (isWhiteSpace c) eqn:Hc.
    + exists (c :: pre). split; [simpl; congruence | by constructor].
    + exists []. split; [done | constructor].
Qed.

Lemma trimStart_head (s : JsString) (c : N) :
  head (trimStart s) = Some c → isWhiteSpace c = false.
Proof.
  induction s as [|d s IH]; simpl; [done|].
  destruct (isWhiteSpace d) eqn:Hd; [done|]. simpl. congruence.
Qed.

Lemma trimStart_snoc (s : JsString) (c : N) :
  isWhiteSpace c = false → trimStart (s ++ [c]) = trimStart s ++ [c].
Proof.
  intros Hc. induction s as [|d s IH]; simpl.
  - by rewrite Hc.
  - by destruct (isWhiteSpace d).
Qed.

Lemma trimEnd_split (s : JsString) :
  ∃ post, s = trimEnd s ++ post ∧ blank post.
Proof.
  destruct (trimStart_split (rev s)) as (pre & Hs & Hpre).
  exists (rev pre). split; [|by apply blank_rev].
  unfold trimEnd. rewrite <- rev_app_distr, <- Hs. by rewrite rev_involutive.
Qed.

Lemma last_rev (s : JsString) : last (rev s) = head s.
Proof. destruct s as [|c s]; simpl; [done | apply last_snoc]. Qed.

Lemma trimEnd_last (s : JsString) (c : N) :
  last (trimEnd s) = Some c → isWhiteSpace c = false.
Proof. unfold trimEnd. rewrite last_rev. apply trimStart_head. Qed.

Lemma trimEnd_head (s : JsString) (c : N) :
  head s = Some c → isWhiteSpace c = false → head (trimEnd s) = Some c.
Proof.
  destruct s as [|d s]; simpl; [done|]. intros [= ->] Hc.
  unfold trimEnd. simpl. rewrite trimStart_snoc by done.
  by rewrite rev_unit.
Qed.

(** [trim] takes a run of white space off each end and nothing else: the
    text is the trimmed text between two blank texts, and the trimmed text
    neither starts nor ends with white space. *)
Theorem trim_strips_both_ends (s : JsString) :
  ∃ pre post,
    s = pre ++ trim s ++ post ∧ blank pre ∧ blank post ∧ trimmed (trim s).
Proof.
  destruct (trimStart_split s) as (pre & Hs & Hpre).
  destruct (trimEnd_split (trimStart s)) as (post & Ht & Hpost).
  exists pre, post. unfold trim. split; [by rewrite <- Ht|].
  split; [done|]. split; [done|]. split.
  - intros c Hc. destruct (trimStart s) as [|d t] eqn:Hstart; [done|].
    assert (isWhiteSpace d = false) as Hd
      by (apply (trimStart_head s); by rewrite Hstart).
    rewrite (trimEnd_head (d :: t) d) in Hc by done. congruence.
  - apply trimEnd_last.
Qed.

(** ** Witnesses of earlier lemmas *)

Lemma createProposal_fresh_witness :
  size Scenario.st1 = S (size (∅ : Storage)) ∧ (∅ : Storage) ⊆ Scenario.st1.
Proof.
  apply (createProposal_fresh Scenario.as_alice ∅ Scenario.st1
           Scenario.payload Scenario.created).
  - reflexivity.
  - reflexivity.
Defined.

Lemma vote_always_accepted_witness :
  (∃ voted st',
     voteYes Scenario.as_bob_later
       (run_calls [(Scenario.as_alice, CreateProposal Scenario.payload);
                   (Scenario.as_bob, VoteYes Scenario.p1)] ∅)
       Scenario.p1 = (Ok voted, st'))
  ∧ (∃ voted st',
       voteNo Scenario.as_bob_later
         (run_calls [(Scenario.as_alice, CreateProposal Scenario.payload);
                     (Scenario.as_bob, VoteYes Scenario.p1)] ∅)
         Scenario.p1 = (Ok voted, st')).
Proof.
  apply (vote_always_accepted
           [(Scenario.as_alice, CreateProposal Scenario.payload);
            (Scenario.as_bob, VoteYes Scenario.p1)]
           Scenario.as_bob_later Scenario.p1
           (with_yes Scenario.as_bob Scenario.created)).
  - reflexivity.
  - discriminate.
Defined.

Lemma nothing_is_ever_deleted_witness :
  is_Some
    (run_calls
       [(Scenario.as_alice, DeleteProposal Scenario.p1 Scenario.alice_arg)]
       Scenario.st1 !! Scenario.p1).
Proof.
  apply (nothing_is_ever_deleted
           [(Scenario.as_alice, DeleteProposal Scenario.p1 Scenario.alice_arg)]
           Scenario.st1 Scenario.p1).
  - constructor; [reflexivity | constructor].
  - by exists Scenario.created.
Defined.

Lemma index_failure_leaves_storage_witness :
  SrcIndexRun.run Scenario.as_bob (UpdateProposal Cases.p9 Scenario.payload)
    Scenario.st1
  = (Err (proposal_not_found Cases.p9), Scenario.st1)
  ∧ Scenario.st1 = Scenario.st1.
Proof.
  split; [reflexivity|].
  apply (index_failure_leaves_storage Scenario.as_bob
           (UpdateProposal Cases.p9 Scenario.payload) Scenario.st1 Scenario.st1
           (proposal_not_found Cases.p9)).
  reflexivity.
Defined.
